(** * cups/base.h: the attribute macros of the CUPS headers

    [cups/base.h] is a preprocessor program.  It reads the macros the
    compiler and the build predefine, records what the compiler can do in
    [_CUPS_HAS_*] feature macros, and then defines the annotation macros
    [_CUPS_PUBLIC], [_CUPS_DEPRECATED_MSG(m)], [_CUPS_FORMAT(a,b)], ... by
    conditional compilation.

    Modelling choices, all of them visible in the definitions below:
    - the program text is a list of preprocessing tokens; white space and
      comments are gone, a string literal is one token;
    - a [#if] condition is a [bool]; [__GNUC__] and [__GNUC_MINOR__] are
      integers in [Z].  The preprocessor computes in [intmax_t]: what is
      proved from the value of a version number assumes it is one
      ([Base.version_number]);
    - what [#include <stdbool.h>] (line 13) defines is the compiler's
      business and none of it is tested or used by the header: [Base.base_h]
      is the header without that line, [Footprint.base_h_with] the header
      with the effect of the line as a parameter;
    - the replacement of a macro is rescanned on its own: a function-like
      macro named last in a replacement list does not take its arguments
      from the text after the invocation, a case no definition of the
      header produces.

    The development has three layers:
    - [Cpp]: preprocessing tokens, macro definitions, the macro table and
      macro replacement (argument collection, parameter substitution and
      rescanning);
    - [Base]: the header itself, one definition per conditional group, as a
      function from the predefined macros to the macro table it leaves
      behind;
    - the properties of the expansions each annotation macro resolves to. *)

From stdpp Require Import base option list strings gmap.
From Stdlib Require Import ZArith.

Open Scope string_scope.
Open Scope Z_scope.
Open Scope list_scope.
Open Scope stdpp_scope.

(** ** Macro replacement *)

Module Cpp.

(** Preprocessing tokens, as far as the header uses them. *)
Inductive token : Type :=
| Ident (name : string)      (* identifier or keyword *)
| Str (text : string)        (* string literal, without its quotes *)
| Num (value : Z)            (* integer constant *)
| LParen
| RParen
| Comma.

(** [#define NAME body] and [#define NAME(params[, ...]) body]. *)
Inductive macro : Type :=
| ObjectLike (body : list token)
| FunctionLike (params : list string) (variadic : bool) (body : list token).

(** The macro table of the translation unit. *)
Abbreviation table := (gmap string macro).

(** [defined(NAME)] / [#ifdef NAME]. *)
Definition defined (E : table) (name : string) : bool :=
  match E !! name with
  | Some _ => true
  | None => false
  end.

(** [#define NAME] with an empty body. *)
Definition define_flag (name : string) (E : table) : table :=
  <[name := ObjectLike []]> E.

(** [#define NAME body]. *)
Definition define (name : string) (body : list token) (E : table) : table :=
  <[name := ObjectLike body]> E.

(** [#define NAME(params) body] and [#define NAME(...) body]. *)
Definition define_fn (name : string) (params : list string) (variadic : bool)
    (body : list token) (E : table) : table :=
  <[name := FunctionLike params variadic body]> E.

(** The arguments of a variadic invocation that follow the named ones are
    merged, commas included, into [__VA_ARGS__]. *)
Fixpoint join_commas (args : list (list token)) : list token :=
  match args with
  | [] => []
  | [a] => a
  | a :: rest => a ++ Comma :: join_commas rest
  end.

(** Bind the parameters that are left to the arguments that are left;
    [None] is the arity error. *)
Fixpoint bind_named (params : list string) (variadic : bool)
    (args : list (list token)) : option (list (string * list token)) :=
  match params with
  | [] =>
      if variadic then Some [("__VA_ARGS__", join_commas args)]
      else match args with
           | [] => Some []
           | _ => None
           end
  | p :: params' =>
      match args with
      | [] => None
      | a :: args' => cons (p, a) <$> bind_named params' variadic args'
      end
  end.

(** Bind parameters to arguments.  The text between the parentheses of
    [F()] reads as one empty argument; for a macro without parameters it
    counts as none. *)
Definition bind_args (params : list string) (variadic : bool)
    (args : list (list token)) : option (list (string * list token)) :=
  match params, variadic, args with
  | [], false, [[]] => Some []
  | _, _, _ => bind_named params variadic args
  end.

Fixpoint assoc (x : string) (binds : list (string * list token))
    : option (list token) :=
  match binds with
  | [] => None
  | (p, a) :: binds' => if String.eqb x p then Some a else assoc x binds'
  end.

(** Replace every parameter in the replacement list by its argument. *)
Definition substitute (binds : list (string * list token))
    (body : list token) : list token :=
  flat_map (fun t =>
              match t with
              | Ident x => default [t] (assoc x binds)
              | _ => [t]
              end) body.

(** A name is not replaced again inside its own replacement. *)
Definition hidden (x : string) (hide : list string) : bool :=
  existsb (String.eqb x) hide.

(** What the scanner is doing: copying tokens, or collecting the
    arguments of an invocation of the function-like macro [name]. *)
Inductive mode : Type :=
| Idle
| Args (name : string) (params : list string) (variadic : bool)
       (body : list token)
       (depth : nat)                  (* open parentheses inside the argument *)
       (cur : list token)             (* the argument being read *)
       (parsed : list (list token)).  (* the arguments already read *)

Section scan.
Variable E : table.
Variable hide : list string.
(** Expansion of a nested token list (an argument, a replacement list)
    under a given hide list. *)
Variable rec : list string → list token → option (list token).

(** One left-to-right pass over [ts].  [None] is a preprocessing error:
    an unterminated argument list, a wrong number of arguments, or
    nesting deeper than [rec] follows. *)
Fixpoint scan (st : mode) (ts : list token) {struct ts}
    : option (list token) :=
  match ts with
  | [] =>
      match st with
      | Idle => Some []
      | Args _ _ _ _ _ _ _ => None
      end
  | t :: rest =>
      match st with
      | Idle =>
          match t with
          | Ident x =>
              if hidden x hide then cons t <$> scan Idle rest
              else
                match E !! x with
                | Some (ObjectLike body) =>
                    out ← rec (x :: hide) body;
                    tl ← scan Idle rest;
                    Some (out ++ tl)
                | Some (FunctionLike params variadic body) =>
                    match rest with
                    | LParen :: rest' =>
                        scan (Args x params variadic body 0 [] []) rest'
                    | _ => cons t <$> scan Idle rest
                    end
                | None => cons t <$> scan Idle rest
                end
          | _ => cons t <$> scan Idle rest
          end
      | Args x params variadic body depth cur parsed =>
          match t, depth with
          | RParen, O =>
              args ← mapM (rec hide) (parsed ++ [cur]);
              binds ← bind_args params variadic args;
              out ← rec (x :: hide) (substitute binds body);
              tl ← scan Idle rest;
              Some (out ++ tl)
          | RParen, S depth' =>
              scan (Args x params variadic body depth' (cur ++ [t]) parsed) rest
          | LParen, _ =>
              scan (Args x params variadic body (S depth) (cur ++ [t]) parsed) rest
          | Comma, O =>
              scan (Args x params variadic body O [] (parsed ++ [cur])) rest
          | _, _ =>
              scan (Args x params variadic body depth (cur ++ [t]) parsed) rest
          end
      end
  end.
End scan.

(** Macro replacement with rescanning; [nesting] bounds how deep
    replacements and arguments may nest, and [None] is returned when the
    bound is reached. *)
Fixpoint expand (nesting : nat) (E : table) (hide : list string)
    (ts : list token) {struct nesting} : option (list token) :=
  match nesting with
  | O => None
  | S n => scan E hide (expand n E) Idle ts
  end.

(** The text a use site is replaced by, under the table [E].  Every
    rescan hides one more macro name, so replacements nest at most as deep
    as the table is large; the results below show that this bound is enough
    for every annotation macro of the header. *)
Definition resolve (E : table) (ts : list token) : option (list token) :=
  expand (S (size E)) E [] ts.

(** *** Well-formed argument text *)

(** A token that macro replacement under [E] leaves alone: anything but the
    name of a macro. *)
Definition inert (E : table) (t : token) : Prop :=
  match t with
  | Ident x => E !! x = None
  | _ => True
  end.

(** Starting inside [depth] open parentheses, [ts] closes exactly those and
    every parenthesis it opens itself. *)
Fixpoint balanced (depth : nat) (ts : list token) : bool :=
  match ts with
  | [] => match depth with O => true | S _ => false end
  | LParen :: ts' => balanced (S depth) ts'
  | RParen :: ts' =>
      match depth with
      | O => false
      | S depth' => balanced depth' ts'
      end
  | _ :: ts' => balanced depth ts'
  end.

End Cpp.

Import Cpp.

(** ** The header *)

Module Base.

(** The macros the header tests but never defines: those the compiler
    predefines and those the build passes on the command line.  A
    [bool] field says whether the macro is defined.  [__has_extension] is
    Clang's built-in feature query: [None] where the compiler has none,
    otherwise the answer the compiler gives for each extension name.
    [__GNUC__] and [__GNUC_MINOR__] carry their integer values. *)
Record predefined : Type := {
  __has_extension : option (string → bool);
  __GNUC__ : option Z;
  __GNUC_MINOR__ : option Z;
  _WIN32 : bool;
  __APPLE__ : bool;
  _CUPS_SOURCE : bool;
  _CUPS_NO_DEPRECATED : bool;
  LIBCUPS2_EXPORTS : bool
}.

(** In a [#if] expression an identifier that is not a macro counts as 0. *)
Definition value (m : option Z) : Z := default 0 m.

(** A version number as a compiler predefines it: a non-negative integer
    constant that [intmax_t], in which [#if] computes, can hold.  On such
    values the comparisons of lines 53-61 are the comparisons of [Z]. *)
Definition version_number (z : Z) : Prop := 0 ≤ z < 2 ^ 63.

(** A group of directives transforms the macro table. *)
Definition directive : Type := table → table.

Definition skip : directive := λ E, E.

Definition seq (d1 d2 : directive) : directive := λ E, d2 (d1 E).

(** [#if c ... #else ... #endif], the condition read in the current table. *)
Definition cond (c : table → bool) (d1 d2 : directive) : directive :=
  λ E, if c E then d1 E else d2 E.

(** [#if c ... #endif] for a condition that does not read the table. *)
Definition when (c : bool) (d : directive) : directive :=
  if c then d else skip.

Definition ifdef (name : string) (d1 d2 : directive) : directive :=
  cond (λ E, defined E name) d1 d2.

Declare Scope directive_scope.
Delimit Scope directive_scope with D.
Bind Scope directive_scope with directive.
Notation "d1 ;; d2" := (seq d1 d2) : directive_scope.
Local Open Scope directive_scope.

(** *** Replacement lists *)

(** [name(args)] *)
Definition call (name : string) (args : list token) : list token :=
  Ident name :: LParen :: args ++ [RParen].

(** [__attribute__ ((spec))] *)
Definition attribute (spec : list token) : list token :=
  call "__attribute__" (LParen :: spec ++ [RParen]).

Definition visibility (v : string) : list token :=
  attribute (call "visibility" [Str v]).

Definition declspec_dllexport : list token :=
  call "__declspec" [Ident "dllexport"].

Definition deprecated : list token := attribute [Ident "deprecated"].
Definition unavailable : list token := attribute [Ident "unavailable"].

(** [__attribute__ ((deprecated(m)))], [__attribute__ ((unavailable(m)))] *)
Definition deprecated_with (m : token) : list token :=
  attribute (call "deprecated" [m]).
Definition unavailable_with (m : token) : list token :=
  attribute (call "unavailable" [m]).

(** [__attribute__ ((__format__(__printf__, a,b)))] *)
Definition format (a b : token) : list token :=
  attribute (call "__format__" [Ident "__printf__"; Comma; a; Comma; b]).

(** [__attribute__ ((nonnull(args)))] *)
Definition nonnull (args : list token) : list token :=
  attribute (call "nonnull" args).

Definition noreturn : list token := attribute [Ident "noreturn"].

(** *** Lines 41-67: which annotation features the compiler has *)

Definition base_features : directive :=
  define_flag "_CUPS_HAS_DEPRECATED" ;;
  define_flag "_CUPS_HAS_FORMAT" ;;
  define_flag "_CUPS_HAS_NORETURN" ;;
  define_flag "_CUPS_HAS_VISIBILITY".

Definition features (P : predefined) : directive :=
  match __has_extension P with
  | Some has_extension =>                                 (* Clang *)
      base_features ;;
      when (has_extension "attribute_deprecated_with_message")
        (define_flag "_CUPS_HAS_DEPRECATED_WITH_MESSAGE") ;;
      when (has_extension "attribute_unavailable_with_message")
        (define_flag "_CUPS_HAS_UNAVAILABLE_WITH_MESSAGE")
  | None =>
      match __GNUC__ P with
      | Some major =>                                     (* GCC and compatible *)
          when (3 <=? major) base_features ;;
          (if 5 <=? major
           then define_flag "_CUPS_HAS_DEPRECATED_WITH_MESSAGE"
           else if (major =? 4) && (5 <=? value (__GNUC_MINOR__ P))
           then define_flag "_CUPS_HAS_DEPRECATED_WITH_MESSAGE"
           else skip)
      | None =>
          when (_WIN32 P) (define_fn "__attribute__" [] true [])
      end
  end.

(** *** Lines 75-87: the visibility macros *)

Definition visibility_macros (P : predefined) : directive :=
  ifdef "_CUPS_HAS_VISIBILITY"
    (define "_CUPS_INTERNAL" (visibility "hidden") ;;
     define "_CUPS_PRIVATE" (visibility "default") ;;
     define "_CUPS_PUBLIC" (visibility "default"))
    (if _WIN32 P && LIBCUPS2_EXPORTS P && false
     then define "_CUPS_INTERNAL" [] ;;
          define "_CUPS_PRIVATE" declspec_dllexport ;;
          define "_CUPS_PUBLIC" declspec_dllexport
     else define "_CUPS_INTERNAL" [] ;;
          define "_CUPS_PRIVATE" [] ;;
          define "_CUPS_PUBLIC" []).

(** *** Lines 99-126: the deprecation macros *)

(** The five groups of the [#if]/[#elif] chain, in source order. *)
Inductive deprecated_group : Type :=
| PublicOnly              (* line 99 *)
| AppleUnavailable        (* line 103 *)
| AppleDeprecated         (* line 108 *)
| Unavailable             (* line 113 *)
| Deprecated.             (* line 118 *)

Definition select_deprecated (P : predefined) (E : table) : deprecated_group :=
  if negb (defined E "_CUPS_HAS_DEPRECATED")
     || (_CUPS_SOURCE P && negb (_CUPS_NO_DEPRECATED P))
  then PublicOnly
  else if __APPLE__ P && _CUPS_NO_DEPRECATED P then AppleUnavailable
  else if __APPLE__ P then AppleDeprecated
  else if defined E "_CUPS_HAS_UNAVAILABLE_WITH_MESSAGE" && _CUPS_NO_DEPRECATED P
  then Unavailable
  else Deprecated.

Definition deprecated_macros (P : predefined) : directive :=
  λ E,
    match select_deprecated P E with
    | PublicOnly =>
        define "_CUPS_DEPRECATED" [Ident "_CUPS_PUBLIC"] ;;
        define_fn "_CUPS_DEPRECATED_MSG" ["m"] false [Ident "_CUPS_PUBLIC"]
    | AppleUnavailable =>
        define "_CUPS_DEPRECATED" (unavailable ++ [Ident "_CUPS_PUBLIC"]) ;;
        define_fn "_CUPS_DEPRECATED_MSG" ["m"] false
          (unavailable_with (Ident "m") ++ [Ident "_CUPS_PUBLIC"])
    | AppleDeprecated =>
        define "_CUPS_DEPRECATED" (deprecated ++ [Ident "_CUPS_PUBLIC"]) ;;
        define_fn "_CUPS_DEPRECATED_MSG" ["m"] false
          (deprecated_with (Ident "m") ++ [Ident "_CUPS_PUBLIC"])
    | Unavailable =>
        define "_CUPS_DEPRECATED" (unavailable ++ [Ident "_CUPS_PUBLIC"]) ;;
        define_fn "_CUPS_DEPRECATED_MSG" ["m"] false
          (unavailable_with (Ident "m") ++ [Ident "_CUPS_PUBLIC"])
    | Deprecated =>
        define "_CUPS_DEPRECATED" (deprecated ++ [Ident "_CUPS_PUBLIC"]) ;;
        ifdef "_CUPS_HAS_DEPRECATED_WITH_MESSAGE"
          (define_fn "_CUPS_DEPRECATED_MSG" ["m"] false
             (deprecated_with (Ident "m") ++ [Ident "_CUPS_PUBLIC"]))
          (define_fn "_CUPS_DEPRECATED_MSG" ["m"] false
             (deprecated ++ [Ident "_CUPS_PUBLIC"]))
    end E.

(** *** Lines 133-137: [_CUPS_FORMAT] *)

Definition format_macro : directive :=
  ifdef "_CUPS_HAS_FORMAT"
    (define_fn "_CUPS_FORMAT" ["a"; "b"] false (format (Ident "a") (Ident "b")))
    (define_fn "_CUPS_FORMAT" ["a"; "b"] false []).

(** *** Lines 147-155: [_CUPS_INTERNAL_MSG] *)

Definition internal_msg_macro (P : predefined) : directive :=
  if _CUPS_SOURCE P
  then define_fn "_CUPS_INTERNAL_MSG" ["m"] false [Ident "_CUPS_PUBLIC"]
  else
    ifdef "_CUPS_HAS_UNAVAILABLE_WITH_MESSAGE"
      (define_fn "_CUPS_INTERNAL_MSG" ["m"] false
         (unavailable_with (Ident "m") ++ [Ident "_CUPS_PUBLIC"]))
      (ifdef "_CUPS_HAS_DEPRECATED_WITH_MESSAGE"
         (define_fn "_CUPS_INTERNAL_MSG" ["m"] false
            (deprecated_with (Ident "m") ++ [Ident "_CUPS_PUBLIC"]))
         (define_fn "_CUPS_INTERNAL_MSG" ["m"] false
            (deprecated ++ [Ident "_CUPS_PUBLIC"]))).

(** *** Lines 163-167: [_CUPS_NONNULL] *)

Definition nonnull_macro : directive :=
  ifdef "_CUPS_HAS_NONNULL"
    (define_fn "_CUPS_NONNULL" [] true (nonnull [Ident "__VA_ARGS__"]))
    (define_fn "_CUPS_NONNULL" [] true []).

(** *** Lines 174-178: [_CUPS_NORETURN] *)

Definition noreturn_macro : directive :=
  ifdef "_CUPS_HAS_NORETURN"
    (define "_CUPS_NORETURN" noreturn)
    (define "_CUPS_NORETURN" []).

(** *** The whole header, inside its include guard (lines 11-179) *)

Definition base_h (P : predefined) : directive :=
  ifdef "_CUPS_BASE_H_"
    skip
    (define_flag "_CUPS_BASE_H_" ;;
     features P ;;
     visibility_macros P ;;
     deprecated_macros P ;;
     format_macro ;;
     internal_msg_macro P ;;
     nonnull_macro ;;
     noreturn_macro).

(** The macro table after [#include <cups/base.h>] at the start of a
    translation unit. *)
Definition included (P : predefined) : table := base_h P ∅.

(** The macro table when the preprocessor reaches line 99, where the
    deprecation group is selected. *)
Definition at_line_99 (P : predefined) : table :=
  (define_flag "_CUPS_BASE_H_" ;; features P ;; visibility_macros P) ∅.

(** Whether a feature macro is defined once the header has been read. *)
Definition supports (P : predefined) (feature : string) : bool :=
  defined (included P) feature.

(** *** Use sites *)

Definition _CUPS_INTERNAL : list token := [Ident "_CUPS_INTERNAL"].
Definition _CUPS_PRIVATE : list token := [Ident "_CUPS_PRIVATE"].
Definition _CUPS_PUBLIC : list token := [Ident "_CUPS_PUBLIC"].
Definition _CUPS_DEPRECATED : list token := [Ident "_CUPS_DEPRECATED"].
Definition _CUPS_DEPRECATED_MSG (m : string) : list token :=
  call "_CUPS_DEPRECATED_MSG" [Str m].
Definition _CUPS_INTERNAL_MSG (m : string) : list token :=
  call "_CUPS_INTERNAL_MSG" [Str m].
Definition _CUPS_FORMAT (a b : Z) : list token :=
  call "_CUPS_FORMAT" [Num a; Comma; Num b].
Definition _CUPS_NONNULL (indices : list Z) : list token :=
  call "_CUPS_NONNULL" (join_commas (map (λ i, [Num i]) indices)).
Definition _CUPS_NORETURN : list token := [Ident "_CUPS_NORETURN"].

(** What a use of an annotation macro is replaced by in a translation
    unit that starts with the header. *)
Definition expansion (P : predefined) (use : list token)
    : option (list token) :=
  resolve (included P) use.

End Base.

Import Base.

(** ** Configurations used as examples *)

Module Example.

(** A compiler that predefines none of the macros the header looks at. *)
Definition unknown_toolchain : predefined :=
  {| __has_extension := None; __GNUC__ := None; __GNUC_MINOR__ := None;
     _WIN32 := false; __APPLE__ := false; _CUPS_SOURCE := false;
     _CUPS_NO_DEPRECATED := false; LIBCUPS2_EXPORTS := false |}.

(** Visual C++: [_WIN32] only; here while the library itself is built for
    export. *)
Definition msvc_exports : predefined :=
  {| __has_extension := None; __GNUC__ := None; __GNUC_MINOR__ := None;
     _WIN32 := true; __APPLE__ := false; _CUPS_SOURCE := false;
     _CUPS_NO_DEPRECATED := false; LIBCUPS2_EXPORTS := true |}.

(** GCC 4.3 on a platform that is not Apple's, compiling a client. *)
Definition gcc_4_3 : predefined :=
  {| __has_extension := None; __GNUC__ := Some 4; __GNUC_MINOR__ := Some 3;
     _WIN32 := false; __APPLE__ := false; _CUPS_SOURCE := false;
     _CUPS_NO_DEPRECATED := false; LIBCUPS2_EXPORTS := false |}.

(** Clang, which has [__has_extension] and answers yes to both queries
    (and also predefines [__GNUC__] 4.2). *)
Definition clang (apple source no_deprecated : bool) : predefined :=
  {| __has_extension := Some (λ _, true);
     __GNUC__ := Some 4; __GNUC_MINOR__ := Some 2;
     _WIN32 := false; __APPLE__ := apple; _CUPS_SOURCE := source;
     _CUPS_NO_DEPRECATED := no_deprecated; LIBCUPS2_EXPORTS := false |}.

End Example.

(** ** What a group of directives may change *)

Module Footprint.

(** The feature macros of lines 41-67, and [__attribute__] of line 66. *)
Definition feature_macros : list string :=
  ["_CUPS_HAS_DEPRECATED"; "_CUPS_HAS_FORMAT"; "_CUPS_HAS_NORETURN";
   "_CUPS_HAS_VISIBILITY"; "_CUPS_HAS_DEPRECATED_WITH_MESSAGE";
   "_CUPS_HAS_UNAVAILABLE_WITH_MESSAGE"; "__attribute__"].

(** The annotation macros of lines 75-178. *)
Definition annotation_macros : list string :=
  ["_CUPS_INTERNAL"; "_CUPS_PRIVATE"; "_CUPS_PUBLIC"; "_CUPS_DEPRECATED";
   "_CUPS_DEPRECATED_MSG"; "_CUPS_FORMAT"; "_CUPS_INTERNAL_MSG";
   "_CUPS_NONNULL"; "_CUPS_NORETURN"].

(** Every name the header defines. *)
Definition header_macros : list string :=
  "_CUPS_BASE_H_" :: feature_macros ++ annotation_macros.

(** The header with its line 13.  What [#include <stdbool.h>] does to the
    macro table is decided by the compiler's own header and is a parameter
    here; it is read after the guard has been defined (line 12) and before
    the feature detection (line 41). *)
Definition base_h_with (stdbool : directive) (P : predefined) : directive :=
  ifdef "_CUPS_BASE_H_"
    skip
    (define_flag "_CUPS_BASE_H_" ;;
     stdbool ;;
     features P ;;
     visibility_macros P ;;
     deprecated_macros P ;;
     format_macro ;;
     internal_msg_macro P ;;
     nonnull_macro ;;
     noreturn_macro)%D.

(** [d] changes the definition of no macro outside [names]. *)
Definition touches (names : list string) (d : directive) : Prop :=
  ∀ E n, n ∉ names → d E !! n = E !! n.

(** [d] removes no definition: there is no [#undef] in it. *)
Definition keeps (d : directive) : Prop :=
  ∀ E n, defined E n = true → defined (d E) n = true.

(** [d] leaves [n] defined, whatever the table before. *)
Definition defines (n : string) (d : directive) : Prop :=
  ∀ E, defined (d E) n = true.

End Footprint.

Import Footprint.

(** ** Further configurations used as examples *)

Module Toolchain.

(** Apple's GCC 4.0, compiling a client. *)
Definition apple_gcc_4_0 : predefined :=
  {| __has_extension := None; __GNUC__ := Some 4; __GNUC_MINOR__ := Some 0;
     _WIN32 := false; __APPLE__ := true; _CUPS_SOURCE := false;
     _CUPS_NO_DEPRECATED := false; LIBCUPS2_EXPORTS := false |}.

(** A Clang that has [__has_extension] but neither of the two message
    extensions, targeting Windows. *)
Definition clang_win32_plain : predefined :=
  {| __has_extension := Some (λ _, false);
     __GNUC__ := None; __GNUC_MINOR__ := None;
     _WIN32 := true; __APPLE__ := false; _CUPS_SOURCE := false;
     _CUPS_NO_DEPRECATED := false; LIBCUPS2_EXPORTS := false |}.

(** What [<stdbool.h>] defines under C99 to C17. *)
Definition c99_stdbool : directive :=
  (define "bool" [Ident "_Bool"] ;;
   define "true" [Num 1] ;;
   define "false" [Num 0] ;;
   define "__bool_true_false_are_defined" [Num 1])%D.

End Toolchain.

(** ** Proof automation *)

(** Case analysis on the predefined macros: every presence test, extension
    query and version comparison of the header is decided, after which the
    table and the expansions are closed terms (up to the message and the
    indices of the use site) and can be evaluated. *)
Ltac expose :=
  cbv beta iota delta
    [expansion supports included at_line_99 base_h features value
     from_option id __has_extension __GNUC__ __GNUC_MINOR__ _WIN32 __APPLE__
     _CUPS_SOURCE _CUPS_NO_DEPRECATED LIBCUPS2_EXPORTS] in *.

Ltac decide_tests :=
  repeat (match goal with
          | |- context [Z.leb ?a ?b] => destruct (Z.leb_spec a b)
          | |- context [Z.eqb ?a ?b] => destruct (Z.eqb_spec a b)
          | q : string → bool |- context [?q' ?s] =>
              constr_eq q q'; destruct (q s) eqn:?
          end;
          try lia; cbv beta iota delta [andb]).

Ltac header_cases P :=
  destruct P as [ext gnuc gnuc_minor win32 apple source no_deprecated exports];
  destruct ext as [has_extension|];
  [ | destruct gnuc as [major|]; [destruct gnuc_minor as [minor|] | ] ];
  expose; decide_tests;
  destruct win32, apple, source, no_deprecated, exports.

(** ** Properties of macro replacement *)

Section replacement.
Variable E : table.

(** With no macro name in it, a pass copies its input. *)
Lemma scan_inert hide rec ts :
  Forall (inert E) ts → scan E hide rec Idle ts = Some ts.
Proof.
  induction 1 as [|t ts Ht _ IH]; [done|].
  destruct t as [x| | | | |]; simpl in *; rewrite IH; try done.
  rewrite Ht. by destruct (hidden x hide).
Qed.

Lemma mapM_expand_inert n hide (args : list (list token)) :
  Forall (Forall (inert E)) args → mapM (expand (S n) E hide) args = Some args.
Proof.
  intros Hargs. apply mapM_Some.
  induction Hargs; constructor; auto. by apply scan_inert.
Qed.

(** Collecting the arguments of an invocation runs up to the parenthesis
    that closes it and keeps the arguments inert. *)
Lemma scan_args_inert hide rec x params variadic body ts rest :
  Forall (inert E) ts →
  ∀ depth cur parsed,
    balanced depth ts = true →
    Forall (Forall (inert E)) (parsed ++ [cur]) →
    ∃ cur' parsed',
      Forall (Forall (inert E)) (parsed' ++ [cur']) ∧
      scan E hide rec (Args x params variadic body depth cur parsed)
           (ts ++ RParen :: rest)
      = scan E hide rec (Args x params variadic body 0 cur' parsed')
             (RParen :: rest).
Proof.
  induction 1 as [|t ts Ht _ IH]; intros depth cur parsed Hbal Hparsed.
  { destruct depth; [|done]. by exists cur, parsed. }
  rewrite Forall_app, Forall_singleton in Hparsed.
  destruct Hparsed as [Hparsed Hcur].
  destruct t, depth; try done; simpl in Hbal |- *; apply IH; try done;
    repeat (rewrite Forall_app || rewrite Forall_singleton);
    repeat split; auto.
Qed.

(** An invocation of a macro defined as [#define NAME(...)], with nothing
    after it, disappears together with its arguments. *)
Lemma resolve_call_erased name args :
  E !! name = Some (FunctionLike [] true []) →
  Forall (inert E) args →
  balanced 0 args = true →
  resolve E (call name args) = Some [].
Proof.
  intros Hname Hargs Hbal. unfold resolve.
  destruct (size E) as [|n] eqn:Hsize.
  { apply map_size_empty_iff in Hsize. by rewrite Hsize, lookup_empty in Hname. }
  change (scan E [] (expand (S n) E) Idle (call name args) = Some []).
  unfold call. cbn [scan hidden existsb]. rewrite Hname.
  destruct (scan_args_inert [] (expand (S n) E) name [] true [] args []
              Hargs 0%nat [] [] Hbal)
    as (cur & parsed & Hinert & ->).
  { by repeat constructor. }
  cbn [scan]. by rewrite (mapM_expand_inert n [] _ Hinert).
Qed.

End replacement.

(** *** The nesting bound *)

Section nesting.
Variable E : table.

Lemma mapM_mono (rec1 rec2 : list token → option (list token)) args r :
  (∀ ts r, rec1 ts = Some r → rec2 ts = Some r) →
  mapM rec1 args = Some r → mapM rec2 args = Some r.
Proof.
  intros Hrec. rewrite !mapM_Some. induction 1; constructor; auto.
Qed.

Lemma scan_mono hide rec1 rec2 :
  (∀ h ts r, rec1 h ts = Some r → rec2 h ts = Some r) →
  ∀ ts st r, scan E hide rec1 st ts = Some r → scan E hide rec2 st ts = Some r.
Proof.
  intros Hrec ts.
  induction ts as [ts IH] using (induction_ltof1 _ (@length token)).
  unfold ltof in IH. intros st r.
  destruct ts as [|t ts]; [done|].
  assert (Hcopy : ∀ r,
             cons t <$> scan E hide rec1 Idle ts = Some r →
             cons t <$> scan E hide rec2 Idle ts = Some r).
  { intros r'. destruct (scan E hide rec1 Idle ts) as [tl|] eqn:Htl; [|done].
    rewrite (IH ts) with (r := tl); [done|simpl; lia|done]. }
  assert (Hthen : ∀ (o1 o2 : option (list token)) r,
             (∀ out, o1 = Some out → o2 = Some out) →
             (out ← o1; tl ← scan E hide rec1 Idle ts; Some (out ++ tl)) = Some r →
             (out ← o2; tl ← scan E hide rec2 Idle ts; Some (out ++ tl)) = Some r).
  { intros o1 o2 r' Ho. destruct o1 as [out|]; [|done].
    rewrite (Ho out eq_refl). simpl.
    destruct (scan E hide rec1 Idle ts) as [tl|] eqn:Htl; [|done].
    rewrite (IH ts) with (r := tl); [done|simpl; lia|done]. }
  destruct st as [|x params variadic body depth cur parsed].
  - destruct t as [x| | | | |]; simpl; try apply Hcopy.
    destruct (hidden x hide); [apply Hcopy|].
    destruct (E !! x) as [[body|params variadic body]|]; [| |apply Hcopy].
    + apply Hthen, Hrec.
    + destruct ts as [|[] ts']; try apply Hcopy.
      apply IH. simpl. lia.
  - destruct t, depth; simpl; try (apply IH; simpl; lia).
    destruct (mapM (rec1 hide) (parsed ++ [cur])) as [args|] eqn:Hargs; [|done].
    rewrite (mapM_mono _ (rec2 hide) _ _ (Hrec hide) Hargs). simpl.
    destruct (bind_args params variadic args) as [binds|]; [|done]. simpl.
    apply Hthen, Hrec.
Qed.

(** A result found within some nesting bound is found within every larger
    one: the bound decides whether there is a result, never which. *)
Lemma expand_mono n n' hide ts r :
  (n ≤ n')%nat → expand n E hide ts = Some r → expand n' E hide ts = Some r.
Proof.
  intros Hle. revert n' Hle hide ts r.
  induction n as [|n IH]; intros n' Hle hide ts r; [done|].
  destruct n' as [|n']; [lia|]. simpl.
  apply scan_mono. intros h ts' r'. apply IH. lia.
Qed.

End nesting.

Lemma resolve_any_bound (E : table) (ts r : list token) (n : nat) :
  resolve E ts = Some r → (S (size E) ≤ n)%nat → expand n E [] ts = Some r.
Proof. intros Hr Hn. by apply (expand_mono E (S (size E))). Qed.

(** *** Argument text *)

Lemma balanced_app ts : ∀ depth more rest,
  balanced depth ts = true →
  balanced (depth + more) (ts ++ rest) = balanced more rest.
Proof.
  induction ts as [|t ts IH]; intros depth more rest Hbal.
  { by destruct depth. }
  destruct t; simpl in *; try by apply IH.
  - by apply (IH (S depth)).
  - destruct depth; [done|]. by apply IH.
Qed.

Lemma indices_inert E (indices : list Z) :
  Forall (inert E) (join_commas (map (λ i, [Num i]) indices)).
Proof.
  induction indices as [|i [|j l] IH]; cbn; repeat constructor.
  exact IH.
Qed.

Lemma indices_balanced (indices : list Z) :
  balanced 0 (join_commas (map (λ i, [Num i]) indices)) = true.
Proof. induction indices as [|i [|j l] IH]; cbn; auto. Qed.

(** ** Properties of the header *)

(** *** Feature detection *)

(** No group of lines 41-67 defines [_CUPS_HAS_NONNULL]. *)
Lemma features_leave_nonnull (P : predefined) (E : table) :
  features P E !! "_CUPS_HAS_NONNULL" = E !! "_CUPS_HAS_NONNULL".
Proof.
  unfold features, base_features, when, seq, skip, define_flag, define_fn.
  repeat case_match; by rewrite ?lookup_insert_ne.
Qed.

Lemma nonnull_definition (P : predefined) :
  included P !! "_CUPS_NONNULL" = Some (FunctionLike [] true []).
Proof. header_cases P; vm_compute; reflexivity. Qed.

Lemma nonnull_expansion (P : predefined) (indices : list Z) :
  expansion P (_CUPS_NONNULL indices) = Some [].
Proof.
  apply resolve_call_erased.
  - apply nonnull_definition.
  - apply indices_inert.
  - apply indices_balanced.
Qed.

(** C9.  No branch of the feature detection defines [_CUPS_HAS_NONNULL], so
    whatever the compiler and the build predefine, the macro is undefined
    when line 163 tests it and [_CUPS_NONNULL(i1, ..., in)] is replaced by
    nothing, for every list of argument indices. *)
Theorem nonnull_never_enabled (P : predefined) :
  (∀ E, features P E !! "_CUPS_HAS_NONNULL" = E !! "_CUPS_HAS_NONNULL") ∧
  supports P "_CUPS_HAS_NONNULL" = false ∧
  ∀ indices, expansion P (_CUPS_NONNULL indices) = Some [].
Proof.
  split; [apply features_leave_nonnull|]. split.
  - header_cases P; vm_compute; reflexivity.
  - apply nonnull_expansion.
Qed.

(** *** Visibility *)

(** C7.  [_CUPS_PRIVATE] and [_CUPS_PUBLIC] get the same definition in
    every group of lines 75-87, so their expansions are identical for all
    predefined macros; [_CUPS_INTERNAL] differs from them where the compiler
    supports visibility (Clang, for one). *)
Theorem private_same_as_public (P : predefined) :
  included P !! "_CUPS_PRIVATE" = included P !! "_CUPS_PUBLIC" ∧
  is_Some (expansion P _CUPS_PUBLIC) ∧
  expansion P _CUPS_PRIVATE = expansion P _CUPS_PUBLIC ∧
  expansion (Example.clang false false false) _CUPS_INTERNAL
  ≠ expansion (Example.clang false false false) _CUPS_PUBLIC.
Proof.
  repeat split.
  - header_cases P; vm_compute; reflexivity.
  - header_cases P; vm_compute; eauto.
  - header_cases P; vm_compute; reflexivity.
  - vm_compute. discriminate.
Qed.

(** The export-table group of lines 79-82 is what the claim C3 describes;
    its condition ends in [&& 0].  On Visual C++ with [LIBCUPS2_EXPORTS]
    the two macros are empty, not [__declspec(dllexport)]. *)
Lemma dllexport_not_emitted :
  _WIN32 Example.msvc_exports = true ∧
  LIBCUPS2_EXPORTS Example.msvc_exports = true ∧
  supports Example.msvc_exports "_CUPS_HAS_VISIBILITY" = false ∧
  expansion Example.msvc_exports _CUPS_PUBLIC ≠ Some declspec_dllexport ∧
  expansion Example.msvc_exports _CUPS_PRIVATE ≠ Some declspec_dllexport.
Proof. vm_compute. repeat split; discriminate. Qed.

(** C3, amended.  On Win32 without visibility attributes and with
    [LIBCUPS2_EXPORTS] defined, [_CUPS_PUBLIC] and [_CUPS_PRIVATE] expand to
    nothing: the export-table group is switched off by the constant 0 in
    its condition, so the [#else] group of lines 84-86 defines them. *)
Theorem export_group_disabled (P : predefined) :
  _WIN32 P = true →
  LIBCUPS2_EXPORTS P = true →
  supports P "_CUPS_HAS_VISIBILITY" = false →
  expansion P _CUPS_PUBLIC = Some [] ∧
  expansion P _CUPS_PRIVATE = Some [].
Proof.
  header_cases P; vm_compute; intros; (discriminate || by split).
Qed.

Lemma export_group_disabled_msvc :
  expansion Example.msvc_exports _CUPS_PUBLIC = Some [] ∧
  expansion Example.msvc_exports _CUPS_PRIVATE = Some [].
Proof. apply (export_group_disabled Example.msvc_exports); reflexivity. Defined.

(** *** [_CUPS_FORMAT] *)

(** C8.  [_CUPS_FORMAT(a,b)] is replaced by
    [__attribute__ ((__format__(__printf__, a,b)))] with the indices as
    given when [_CUPS_HAS_FORMAT] is defined, and by nothing otherwise; a
    compiler that has neither [__has_extension] nor [__GNUC__] is in the
    second case. *)
Theorem format_expansion (P : predefined) (a b : Z) :
  expansion P (_CUPS_FORMAT a b)
  = Some (if supports P "_CUPS_HAS_FORMAT" then format (Num a) (Num b) else []) ∧
  (__has_extension P = None → __GNUC__ P = None →
   supports P "_CUPS_HAS_FORMAT" = false ∧
   expansion P (_CUPS_FORMAT a b) = Some []).
Proof.
  header_cases P; vm_compute; (split; [reflexivity|]); intros; (discriminate || by split).
Qed.

Lemma format_expansion_unknown_toolchain :
  expansion Example.unknown_toolchain (_CUPS_FORMAT 2 3) = Some [].
Proof.
  apply (format_expansion Example.unknown_toolchain 2 3); reflexivity.
Defined.

(** *** Deprecation *)

(** Where [_CUPS_HAS_DEPRECATED] is not defined, line 99 selects the first
    group and both deprecation macros are [_CUPS_PUBLIC] alone. *)
Lemma deprecated_without_support (P : predefined) (m : string) :
  supports P "_CUPS_HAS_DEPRECATED" = false →
  select_deprecated P (at_line_99 P) = PublicOnly ∧
  ∃ pub, expansion P _CUPS_PUBLIC = Some pub ∧
         expansion P _CUPS_DEPRECATED = Some pub ∧
         expansion P (_CUPS_DEPRECATED_MSG m) = Some pub.
Proof.
  header_cases P; vm_compute; intros; try discriminate;
    (split; [reflexivity|]); eexists; repeat split; reflexivity.
Qed.

(** C1.  The claim fails for [_CUPS_INTERNAL_MSG]: lines 147-155 never test
    [_CUPS_HAS_DEPRECATED].  On a compiler that predefines none of the
    macros the header looks at, no feature macro is defined and
    [_CUPS_PUBLIC] is empty, yet [_CUPS_INTERNAL_MSG("use X")] is replaced
    by [__attribute__ ((deprecated))]. *)
Theorem internal_msg_unknown_toolchain :
  supports Example.unknown_toolchain "_CUPS_HAS_DEPRECATED" = false ∧
  supports Example.unknown_toolchain "_CUPS_HAS_DEPRECATED_WITH_MESSAGE" = false ∧
  supports Example.unknown_toolchain "_CUPS_HAS_UNAVAILABLE_WITH_MESSAGE" = false ∧
  expansion Example.unknown_toolchain _CUPS_PUBLIC = Some [] ∧
  expansion Example.unknown_toolchain (_CUPS_DEPRECATED_MSG "use X") = Some [] ∧
  expansion Example.unknown_toolchain (_CUPS_INTERNAL_MSG "use X")
  = Some deprecated.
Proof. vm_compute. repeat split. Qed.

(** Building the library's own source with [_CUPS_NO_DEPRECATED] as well:
    the second disjunct of line 99 is false, and on Clang
    [_CUPS_DEPRECATED] is more than [_CUPS_PUBLIC]. *)
Lemma own_source_still_unavailable :
  _CUPS_SOURCE (Example.clang false true true) = true ∧
  expansion (Example.clang false true true) _CUPS_PUBLIC
  = Some (visibility "default") ∧
  expansion (Example.clang false true true) _CUPS_DEPRECATED
  = Some (unavailable ++ visibility "default") ∧
  expansion (Example.clang false true true) _CUPS_DEPRECATED
  ≠ expansion (Example.clang false true true) _CUPS_PUBLIC.
Proof. vm_compute. repeat split. discriminate. Qed.

(** C2, amended.  With [_CUPS_SOURCE] defined, [_CUPS_INTERNAL_MSG(m)] is
    [_CUPS_PUBLIC] alone whatever else is defined; [_CUPS_DEPRECATED] and
    [_CUPS_DEPRECATED_MSG(m)] are [_CUPS_PUBLIC] alone exactly when
    [_CUPS_NO_DEPRECATED] is not defined or the compiler has no
    [_CUPS_HAS_DEPRECATED]. *)
Theorem own_source_expansions (P : predefined) (m : string) :
  _CUPS_SOURCE P = true →
  ∃ pub,
    expansion P _CUPS_PUBLIC = Some pub ∧
    expansion P (_CUPS_INTERNAL_MSG m) = Some pub ∧
    (expansion P _CUPS_DEPRECATED = Some pub ↔
     _CUPS_NO_DEPRECATED P = false ∨ supports P "_CUPS_HAS_DEPRECATED" = false) ∧
    (expansion P (_CUPS_DEPRECATED_MSG m) = Some pub ↔
     _CUPS_NO_DEPRECATED P = false ∨ supports P "_CUPS_HAS_DEPRECATED" = false).
Proof.
  header_cases P; vm_compute; intros; try discriminate;
    eexists; (split; [reflexivity|]); (split; [reflexivity|]);
    split; split; intros; auto; try discriminate; intuition discriminate.
Qed.

Lemma own_source_expansions_clang :
  ∃ pub,
    expansion (Example.clang false true false) _CUPS_PUBLIC = Some pub ∧
    expansion (Example.clang false true false) (_CUPS_INTERNAL_MSG "use X")
    = Some pub ∧
    (expansion (Example.clang false true false) _CUPS_DEPRECATED = Some pub ↔
     _CUPS_NO_DEPRECATED (Example.clang false true false) = false ∨
     supports (Example.clang false true false) "_CUPS_HAS_DEPRECATED" = false) ∧
    (expansion (Example.clang false true false) (_CUPS_DEPRECATED_MSG "use X")
     = Some pub ↔
     _CUPS_NO_DEPRECATED (Example.clang false true false) = false ∨
     supports (Example.clang false true false) "_CUPS_HAS_DEPRECATED" = false).
Proof.
  apply (own_source_expansions (Example.clang false true false) "use X").
  reflexivity.
Defined.

(** On Apple's platform with [_CUPS_NO_DEPRECATED], and likewise on any
    Clang that has the unavailable-with-message extension, the marker of
    [_CUPS_DEPRECATED] is [unavailable], not [deprecated]. *)
Lemma deprecated_may_be_unavailable :
  supports (Example.clang true false true) "_CUPS_HAS_DEPRECATED" = true ∧
  _CUPS_SOURCE (Example.clang true false true) = false ∧
  expansion (Example.clang true false true) _CUPS_PUBLIC
  = Some (visibility "default") ∧
  expansion (Example.clang true false true) _CUPS_DEPRECATED
  = Some (unavailable ++ visibility "default") ∧
  expansion (Example.clang true false true) _CUPS_DEPRECATED
  ≠ Some (deprecated ++ visibility "default").
Proof. vm_compute. repeat split. discriminate. Qed.

(** C4, amended.  [_CUPS_DEPRECATED] is [_CUPS_PUBLIC] alone when
    [_CUPS_HAS_DEPRECATED] is not defined or [_CUPS_SOURCE] is defined
    without [_CUPS_NO_DEPRECATED]; otherwise it is
    [__attribute__ ((unavailable))] followed by [_CUPS_PUBLIC] when
    [_CUPS_NO_DEPRECATED] is defined together with [__APPLE__] or
    [_CUPS_HAS_UNAVAILABLE_WITH_MESSAGE], and [__attribute__ ((deprecated))]
    followed by [_CUPS_PUBLIC] in every remaining case. *)
Theorem deprecated_expansion (P : predefined) :
  ∃ pub,
    expansion P _CUPS_PUBLIC = Some pub ∧
    expansion P _CUPS_DEPRECATED
    = Some (if negb (supports P "_CUPS_HAS_DEPRECATED")
               || (_CUPS_SOURCE P && negb (_CUPS_NO_DEPRECATED P))
            then pub
            else if _CUPS_NO_DEPRECATED P
                    && (__APPLE__ P
                        || supports P "_CUPS_HAS_UNAVAILABLE_WITH_MESSAGE")
            then unavailable ++ pub
            else deprecated ++ pub).
Proof.
  header_cases P; vm_compute; eexists; split; reflexivity.
Qed.

(** C5.  With [__APPLE__] and [_CUPS_NO_DEPRECATED] defined and
    [_CUPS_HAS_DEPRECATED] available, the chain of lines 99-126 stops at
    line 103 whether or not [_CUPS_HAS_UNAVAILABLE_WITH_MESSAGE] (tested
    only at line 113) is defined, and [_CUPS_DEPRECATED_MSG(m)] is
    [__attribute__ ((unavailable(m)))] followed by [_CUPS_PUBLIC].  This
    holds with and without [_CUPS_SOURCE], whose effect at line 99
    [_CUPS_NO_DEPRECATED] cancels. *)
Theorem apple_no_deprecated_unavailable (P : predefined) (m : string) :
  __APPLE__ P = true →
  _CUPS_NO_DEPRECATED P = true →
  supports P "_CUPS_HAS_DEPRECATED" = true →
  (∀ E, defined E "_CUPS_HAS_DEPRECATED" = true →
        select_deprecated P E = AppleUnavailable) ∧
  select_deprecated P (at_line_99 P) = AppleUnavailable ∧
  ∃ pub,
    expansion P _CUPS_PUBLIC = Some pub ∧
    expansion P (_CUPS_DEPRECATED_MSG m) = Some (unavailable_with (Str m) ++ pub).
Proof.
  intros Happle Hno Hdep. split.
  { intros E HE. unfold select_deprecated. rewrite HE, Happle, Hno.
    by destruct (_CUPS_SOURCE P). }
  revert Happle Hno Hdep.
  header_cases P; vm_compute; intros; try discriminate;
    (split; [reflexivity|]); eexists; split; reflexivity.
Qed.

Lemma apple_no_deprecated_unavailable_clang :
  select_deprecated (Example.clang true false true)
    (at_line_99 (Example.clang true false true)) = AppleUnavailable ∧
  ∃ pub,
    expansion (Example.clang true false true) _CUPS_PUBLIC = Some pub ∧
    expansion (Example.clang true false true) (_CUPS_DEPRECATED_MSG "use X")
    = Some (unavailable_with (Str "use X") ++ pub).
Proof.
  apply (apple_no_deprecated_unavailable (Example.clang true false true) "use X");
    reflexivity.
Defined.

(** The feature macros GCC ends up with, as boolean tests on its version. *)
Lemma gcc_features (P : predefined) (major minor : Z) :
  __has_extension P = None →
  __GNUC__ P = Some major →
  __GNUC_MINOR__ P = Some minor →
  version_number major →
  version_number minor →
  supports P "_CUPS_HAS_DEPRECATED" = (3 <=? major) ∧
  supports P "_CUPS_HAS_FORMAT" = (3 <=? major) ∧
  supports P "_CUPS_HAS_NORETURN" = (3 <=? major) ∧
  supports P "_CUPS_HAS_VISIBILITY" = (3 <=? major) ∧
  supports P "_CUPS_HAS_DEPRECATED_WITH_MESSAGE"
  = (5 <=? major) || ((major =? 4) && (5 <=? minor)) ∧
  supports P "_CUPS_HAS_UNAVAILABLE_WITH_MESSAGE" = false.
Proof.
  destruct P as [ext gnuc gnuc_minor win32 apple source no_deprecated exports].
  cbn [__has_extension __GNUC__ __GNUC_MINOR__]. intros -> -> -> _ _.
  expose; decide_tests;
    destruct win32, apple, source, no_deprecated, exports;
    vm_compute; repeat split.
Qed.

(** C6.  For a compiler that only identifies itself as GCC and reports
    version numbers (non-negative and within [intmax_t]), the four base
    feature macros are defined exactly from major version 3 on, and
    [_CUPS_HAS_DEPRECATED_WITH_MESSAGE] exactly for 5.x and later and for
    4.5 and later.  GCC 4.3, off Apple's platform and outside the library's
    own source, therefore replaces [_CUPS_DEPRECATED_MSG(m)] by
    [__attribute__ ((deprecated))], without [m], followed by
    [_CUPS_PUBLIC]. *)
Theorem gcc_features_by_version (P : predefined) (major minor : Z) :
  __has_extension P = None →
  __GNUC__ P = Some major →
  __GNUC_MINOR__ P = Some minor →
  version_number major →
  version_number minor →
  (supports P "_CUPS_HAS_DEPRECATED" = true ↔ 3 ≤ major) ∧
  (supports P "_CUPS_HAS_FORMAT" = true ↔ 3 ≤ major) ∧
  (supports P "_CUPS_HAS_NORETURN" = true ↔ 3 ≤ major) ∧
  (supports P "_CUPS_HAS_VISIBILITY" = true ↔ 3 ≤ major) ∧
  (supports P "_CUPS_HAS_DEPRECATED_WITH_MESSAGE" = true ↔
   5 ≤ major ∨ (major = 4 ∧ 5 ≤ minor)) ∧
  (major = 4 → minor = 3 → __APPLE__ P = false → _CUPS_SOURCE P = false →
   ∀ m, expansion P _CUPS_PUBLIC = Some (visibility "default") ∧
        expansion P (_CUPS_DEPRECATED_MSG m)
        = Some (deprecated ++ visibility "default")).
Proof.
  intros Hext Hmajor Hminor Hmajor_range Hminor_range.
  destruct (gcc_features P major minor Hext Hmajor Hminor
              Hmajor_range Hminor_range)
    as (-> & -> & -> & -> & -> & _).
  rewrite orb_true_iff, andb_true_iff, !Z.leb_le, Z.eqb_eq.
  repeat (split; [done|]).
  intros -> ->. revert Hext Hmajor Hminor.
  destruct P as [ext gnuc gnuc_minor win32 apple source no_deprecated exports].
  cbn [__has_extension __GNUC__ __GNUC_MINOR__ __APPLE__ _CUPS_SOURCE].
  intros -> -> -> -> -> m.
  destruct win32, no_deprecated, exports; vm_compute; by split.
Qed.

Lemma gcc_features_by_version_4_3 :
  (supports Example.gcc_4_3 "_CUPS_HAS_DEPRECATED" = true ↔ 3 ≤ 4) ∧
  (supports Example.gcc_4_3 "_CUPS_HAS_FORMAT" = true ↔ 3 ≤ 4) ∧
  (supports Example.gcc_4_3 "_CUPS_HAS_NORETURN" = true ↔ 3 ≤ 4) ∧
  (supports Example.gcc_4_3 "_CUPS_HAS_VISIBILITY" = true ↔ 3 ≤ 4) ∧
  (supports Example.gcc_4_3 "_CUPS_HAS_DEPRECATED_WITH_MESSAGE" = true ↔
   5 ≤ 4 ∨ (4 = 4 ∧ 5 ≤ 3)) ∧
  expansion Example.gcc_4_3 _CUPS_PUBLIC = Some (visibility "default") ∧
  expansion Example.gcc_4_3 (_CUPS_DEPRECATED_MSG "use X")
  = Some (deprecated ++ visibility "default").
Proof.
  destruct (gcc_features_by_version Example.gcc_4_3 4 3)
    as (H1 & H2 & H3 & H4 & H5 & H6);
    [reflexivity|reflexivity|reflexivity
    |unfold version_number; lia|unfold version_number; lia|].
  repeat (split; [assumption|]).
  apply H6; reflexivity.
Defined.

(** *** Visual C++ *)

(** C10.  Where the compiler has neither [__has_extension] nor [__GNUC__]
    and [_WIN32] is defined, line 66 makes [__attribute__] a function-like
    macro with an empty replacement list.  Every [__attribute__ ((spec))]
    whose [spec] is balanced and names no macro is then replaced by
    nothing; so is the [__attribute__ ((deprecated))] that the last group
    for [_CUPS_INTERNAL_MSG] still puts in the definition, and so are all
    annotation macros of the header, the three visibility macros among
    them. *)
Theorem win32_attribute_erased (P : predefined) :
  __has_extension P = None →
  __GNUC__ P = None →
  _WIN32 P = true →
  included P !! "__attribute__" = Some (FunctionLike [] true []) ∧
  (∀ spec, Forall (inert (included P)) spec → balanced 0 spec = true →
           resolve (included P) (attribute spec) = Some []) ∧
  (_CUPS_SOURCE P = false →
   included P !! "_CUPS_INTERNAL_MSG"
   = Some (FunctionLike ["m"] false (deprecated ++ [Ident "_CUPS_PUBLIC"]))) ∧
  (∀ m, expansion P (_CUPS_INTERNAL_MSG m) = Some []) ∧
  expansion P _CUPS_INTERNAL = Some [] ∧
  expansion P _CUPS_PRIVATE = Some [] ∧
  expansion P _CUPS_PUBLIC = Some [] ∧
  expansion P _CUPS_DEPRECATED = Some [] ∧
  (∀ m, expansion P (_CUPS_DEPRECATED_MSG m) = Some []) ∧
  (∀ a b, expansion P (_CUPS_FORMAT a b) = Some []) ∧
  (∀ indices, expansion P (_CUPS_NONNULL indices) = Some []) ∧
  expansion P _CUPS_NORETURN = Some [].
Proof.
  intros Hext Hgnuc Hwin.
  assert (Hattr : included P !! "__attribute__" = Some (FunctionLike [] true [])).
  { revert Hext Hgnuc Hwin.
    destruct P as [ext gnuc gnuc_minor win32 apple source no_deprecated exports].
    cbn [__has_extension __GNUC__ _WIN32]. intros -> -> ->.
    destruct apple, source, no_deprecated, exports; vm_compute; reflexivity. }
  split; [exact Hattr|]. split.
  { intros spec Hinert Hbal. apply resolve_call_erased; [exact Hattr| |].
    - constructor; [done|]. apply Forall_app. split; [done|by constructor].
    - exact (balanced_app spec 0%nat 1%nat [RParen] Hbal). }
  split.
  { revert Hext Hgnuc Hwin.
    destruct P as [ext gnuc gnuc_minor win32 apple source no_deprecated exports].
    cbn [__has_extension __GNUC__ _WIN32 _CUPS_SOURCE]. intros -> -> -> ->.
    destruct apple, no_deprecated, exports; vm_compute; reflexivity. }
  assert (Hnonnull := nonnull_expansion P).
  revert Hext Hgnuc Hwin Hattr Hnonnull.
  destruct P as [ext gnuc gnuc_minor win32 apple source no_deprecated exports].
  cbn [__has_extension __GNUC__ _WIN32]. intros -> -> -> _ Hnonnull.
  repeat match goal with |- _ ∧ _ => split end;
    try exact Hnonnull;
    destruct apple, source, no_deprecated, exports; vm_compute; reflexivity.
Qed.

Lemma win32_attribute_erased_msvc :
  included Example.msvc_exports !! "__attribute__"
  = Some (FunctionLike [] true []) ∧
  resolve (included Example.msvc_exports) deprecated = Some [] ∧
  included Example.msvc_exports !! "_CUPS_INTERNAL_MSG"
  = Some (FunctionLike ["m"] false (deprecated ++ [Ident "_CUPS_PUBLIC"])) ∧
  expansion Example.msvc_exports (_CUPS_INTERNAL_MSG "use X") = Some [] ∧
  expansion Example.msvc_exports _CUPS_INTERNAL = Some [] ∧
  expansion Example.msvc_exports _CUPS_PRIVATE = Some [] ∧
  expansion Example.msvc_exports _CUPS_PUBLIC = Some [].
Proof.
  destruct (win32_attribute_erased Example.msvc_exports)
    as (H1 & H2 & H3 & H4 & H5 & H6 & H7 & _); [reflexivity..|].
  split; [exact H1|]. split.
  { apply (H2 [Ident "deprecated"]); [|reflexivity].
    constructor; [vm_compute; reflexivity|constructor]. }
  split; [apply H3; reflexivity|].
  split; [apply H4|]. split; [exact H5|]. split; [exact H6|exact H7].
Defined.

(** ** The footprint of the header *)

Section footprint.
Local Open Scope directive_scope.

Lemma touches_skip names : touches names skip.
Proof. by intros E n _. Qed.

Lemma touches_seq names d1 d2 :
  touches names d1 → touches names d2 → touches names (d1 ;; d2).
Proof. intros H1 H2 E n Hn. unfold seq. by rewrite H2, H1. Qed.

Lemma touches_cond names c d1 d2 :
  touches names d1 → touches names d2 → touches names (cond c d1 d2).
Proof. intros H1 H2 E n Hn. unfold cond. destruct (c E); auto. Qed.

Lemma touches_ifdef names x d1 d2 :
  touches names d1 → touches names d2 → touches names (ifdef x d1 d2).
Proof. apply touches_cond. Qed.

Lemma touches_if names (b : bool) d1 d2 :
  touches names d1 → touches names d2 → touches names (if b then d1 else d2).
Proof. by destruct b. Qed.

Lemma touches_when names b d : touches names d → touches names (when b d).
Proof. intros H. destruct b; [done|apply touches_skip]. Qed.

Lemma touches_define_flag names x : x ∈ names → touches names (define_flag x).
Proof.
  intros Hx E n Hn. unfold define_flag.
  apply lookup_insert_ne. by intros ->.
Qed.

Lemma touches_define names x body : x ∈ names → touches names (define x body).
Proof.
  intros Hx E n Hn. unfold define.
  apply lookup_insert_ne. by intros ->.
Qed.

Lemma touches_define_fn names x params variadic body :
  x ∈ names → touches names (define_fn x params variadic body).
Proof.
  intros Hx E n Hn. unfold define_fn.
  apply lookup_insert_ne. by intros ->.
Qed.

Lemma touches_weaken names names' d :
  names ⊆ names' → touches names d → touches names' d.
Proof. intros Hsub H E n Hn. apply H. intros Hin. by apply Hn, Hsub. Qed.

Lemma keeps_skip : keeps skip.
Proof. by intros E n. Qed.

Lemma keeps_seq d1 d2 : keeps d1 → keeps d2 → keeps (d1 ;; d2).
Proof. intros H1 H2 E n Hn. unfold seq. auto. Qed.

Lemma keeps_cond c d1 d2 : keeps d1 → keeps d2 → keeps (cond c d1 d2).
Proof. intros H1 H2 E n Hn. unfold cond. destruct (c E); auto. Qed.

Lemma keeps_ifdef x d1 d2 : keeps d1 → keeps d2 → keeps (ifdef x d1 d2).
Proof. apply keeps_cond. Qed.

Lemma keeps_if (b : bool) d1 d2 : keeps d1 → keeps d2 → keeps (if b then d1 else d2).
Proof. by destruct b. Qed.

Lemma keeps_when b d : keeps d → keeps (when b d).
Proof. intros H. destruct b; [done|apply keeps_skip]. Qed.

Lemma defined_insert (E : table) x m n :
  defined (<[x := m]> E) n = true ↔ x = n ∨ defined E n = true.
Proof.
  unfold defined. rewrite lookup_insert. case_decide as Hx.
  - split; [by left|done].
  - destruct (E !! n); split; try done; [by right|by intros [?|?]].
Qed.

Lemma keeps_define_flag x : keeps (define_flag x).
Proof. intros E n Hn. apply defined_insert. by right. Qed.

Lemma keeps_define x body : keeps (define x body).
Proof. intros E n Hn. apply defined_insert. by right. Qed.

Lemma keeps_define_fn x params variadic body :
  keeps (define_fn x params variadic body).
Proof. intros E n Hn. apply defined_insert. by right. Qed.

Lemma defines_define_flag x : defines x (define_flag x).
Proof. intros E. apply defined_insert. by left. Qed.

Lemma defines_define x body : defines x (define x body).
Proof. intros E. apply defined_insert. by left. Qed.

Lemma defines_define_fn x params variadic body :
  defines x (define_fn x params variadic body).
Proof. intros E. apply defined_insert. by left. Qed.

Lemma defines_seq_l n d1 d2 : defines n d1 → keeps d2 → defines n (d1 ;; d2).
Proof. intros H1 H2 E. unfold seq. auto. Qed.

Lemma defines_seq_r n d1 d2 : defines n d2 → defines n (d1 ;; d2).
Proof. intros H2 E. unfold seq. auto. Qed.

Lemma defines_cond n c d1 d2 :
  defines n d1 → defines n d2 → defines n (cond c d1 d2).
Proof. intros H1 H2 E. unfold cond. destruct (c E); auto. Qed.

Lemma defines_ifdef n x d1 d2 :
  defines n d1 → defines n d2 → defines n (ifdef x d1 d2).
Proof. apply defines_cond. Qed.

Lemma defines_if n (b : bool) d1 d2 :
  defines n d1 → defines n d2 → defines n (if b then d1 else d2).
Proof. by destruct b. Qed.

End footprint.

(** Goals about [touches] and [keeps] follow the structure of the group. *)
Ltac listed :=
  unfold header_macros, feature_macros, annotation_macros; simpl;
  repeat first [apply list_elem_of_here | apply list_elem_of_further].

Ltac footprint :=
  repeat match goal with
         | |- touches _ skip => apply touches_skip
         | |- touches _ (seq _ _) => apply touches_seq
         | |- touches _ (ifdef _ _ _) => apply touches_ifdef
         | |- touches _ (cond _ _ _) => apply touches_cond
         | |- touches _ (when _ _) => apply touches_when
         | |- touches _ (define_flag _) => apply touches_define_flag
         | |- touches _ (define _ _) => apply touches_define
         | |- touches _ (define_fn _ _ _ _) => apply touches_define_fn
         | |- touches _ (if _ then _ else _) => apply touches_if
         | |- keeps skip => apply keeps_skip
         | |- keeps (seq _ _) => apply keeps_seq
         | |- keeps (ifdef _ _ _) => apply keeps_ifdef
         | |- keeps (cond _ _ _) => apply keeps_cond
         | |- keeps (when _ _) => apply keeps_when
         | |- keeps (define_flag _) => apply keeps_define_flag
         | |- keeps (define _ _) => apply keeps_define
         | |- keeps (define_fn _ _ _ _) => apply keeps_define_fn
         | |- keeps (if _ then _ else _) => apply keeps_if
         | |- _ ∈ _ => solve [listed]
         end.

(** *** Group by group *)

Lemma features_touch (P : predefined) : touches feature_macros (features P).
Proof.
  unfold features, base_features.
  destruct (__has_extension P), (__GNUC__ P); footprint.
Qed.

Lemma features_keep (P : predefined) : keeps (features P).
Proof.
  unfold features, base_features.
  destruct (__has_extension P), (__GNUC__ P); footprint.
Qed.

Lemma visibility_macros_touch (P : predefined) :
  touches annotation_macros (visibility_macros P).
Proof. unfold visibility_macros. footprint. Qed.

Lemma visibility_macros_keep (P : predefined) : keeps (visibility_macros P).
Proof. unfold visibility_macros. footprint. Qed.

Lemma deprecated_macros_touch (P : predefined) :
  touches annotation_macros (deprecated_macros P).
Proof.
  intros E n Hn. unfold deprecated_macros.
  destruct (select_deprecated P E);
    (eapply touches_seq; [..|exact Hn]); footprint.
Qed.

Lemma deprecated_macros_keep (P : predefined) : keeps (deprecated_macros P).
Proof.
  intros E n Hn. unfold deprecated_macros.
  destruct (select_deprecated P E);
    (eapply keeps_seq; [..|exact Hn]); footprint.
Qed.

Lemma format_macro_touch : touches annotation_macros format_macro.
Proof. unfold format_macro. footprint. Qed.

Lemma format_macro_keep : keeps format_macro.
Proof. unfold format_macro. footprint. Qed.

Lemma internal_msg_macro_touch (P : predefined) :
  touches annotation_macros (internal_msg_macro P).
Proof. unfold internal_msg_macro. footprint. Qed.

Lemma internal_msg_macro_keep (P : predefined) : keeps (internal_msg_macro P).
Proof. unfold internal_msg_macro. footprint. Qed.

Lemma nonnull_macro_touch : touches annotation_macros nonnull_macro.
Proof. unfold nonnull_macro. footprint. Qed.

Lemma nonnull_macro_keep : keeps nonnull_macro.
Proof. unfold nonnull_macro. footprint. Qed.

Lemma noreturn_macro_touch : touches annotation_macros noreturn_macro.
Proof. unfold noreturn_macro. footprint. Qed.

Lemma noreturn_macro_keep : keeps noreturn_macro.
Proof. unfold noreturn_macro. footprint. Qed.

(** *** The header as a whole *)

Ltac groups :=
  footprint;
  repeat match goal with
         | |- keeps (features _) => apply features_keep
         | |- keeps (visibility_macros _) => apply visibility_macros_keep
         | |- keeps (deprecated_macros _) => apply deprecated_macros_keep
         | |- keeps format_macro => apply format_macro_keep
         | |- keeps (internal_msg_macro _) => apply internal_msg_macro_keep
         | |- keeps nonnull_macro => apply nonnull_macro_keep
         | |- keeps noreturn_macro => apply noreturn_macro_keep
         | |- touches header_macros (features _) =>
             apply (touches_weaken feature_macros); [|apply features_touch]
         | |- touches header_macros (visibility_macros _) =>
             apply (touches_weaken annotation_macros);
             [|apply visibility_macros_touch]
         | |- touches header_macros (deprecated_macros _) =>
             apply (touches_weaken annotation_macros);
             [|apply deprecated_macros_touch]
         | |- touches header_macros format_macro =>
             apply (touches_weaken annotation_macros);
             [|apply format_macro_touch]
         | |- touches header_macros (internal_msg_macro _) =>
             apply (touches_weaken annotation_macros);
             [|apply internal_msg_macro_touch]
         | |- touches header_macros nonnull_macro =>
             apply (touches_weaken annotation_macros);
             [|apply nonnull_macro_touch]
         | |- touches header_macros noreturn_macro =>
             apply (touches_weaken annotation_macros);
             [|apply noreturn_macro_touch]
         end.

Lemma feature_macros_in_header : feature_macros ⊆ header_macros.
Proof.
  intros x Hx. unfold header_macros.
  apply list_elem_of_further, elem_of_app. by left.
Qed.

Lemma annotation_macros_in_header : annotation_macros ⊆ header_macros.
Proof.
  intros x Hx. unfold header_macros.
  apply list_elem_of_further, elem_of_app. by right.
Qed.

(** [base_h] is the header whose include defines nothing. *)
Lemma base_h_with_nothing (P : predefined) (E : table) :
  base_h_with skip P E = base_h P E.
Proof. reflexivity. Qed.

(** X3.  Whatever [<stdbool.h>] does on line 13, the directives of the
    header itself define names of its own only: the guard, the feature
    macros, [__attribute__] and the nine annotation macros.  Under every
    other name the table after the header holds what the include left
    there. *)
Theorem header_touches_own_names (stdbool : directive) (P : predefined)
    (E : table) (n : string) :
  defined E "_CUPS_BASE_H_" = false →
  n ∉ header_macros →
  base_h_with stdbool P E !! n = stdbool (define_flag "_CUPS_BASE_H_" E) !! n.
Proof.
  intros Hguard Hn. unfold base_h_with, ifdef, cond. rewrite Hguard.
  unfold seq at 1. unfold seq at 1.
  revert Hn. generalize (stdbool (define_flag "_CUPS_BASE_H_" E)). revert n.
  intros n E' Hn. revert E' n Hn.
  match goal with |- ∀ E' n, _ → ?d E' !! n = E' !! n =>
    change (touches header_macros d) end.
  groups; auto using feature_macros_in_header, annotation_macros_in_header.
Qed.

Lemma header_touches_own_names_stdbool :
  base_h_with Toolchain.c99_stdbool Example.gcc_4_3 ∅ !! "bool"
  = Some (ObjectLike [Ident "_Bool"]).
Proof.
  rewrite (header_touches_own_names Toolchain.c99_stdbool Example.gcc_4_3 ∅
             "bool").
  - reflexivity.
  - reflexivity.
  - unfold header_macros, feature_macros, annotation_macros. simpl.
    rewrite !not_elem_of_cons. repeat split; try done. apply not_elem_of_nil.
Defined.

(** X2.  The header has no [#undef]: whatever was defined before it is
    still defined after it, for every table it is read into. *)
Theorem header_undefines_nothing (P : predefined) (E : table) (n : string) :
  defined E n = true → defined (base_h P E) n = true.
Proof.
  revert E n. change (keeps (base_h P)).
  unfold base_h. groups.
Qed.

Lemma header_undefines_nothing_NDEBUG :
  defined (base_h Example.unknown_toolchain (define_flag "NDEBUG" ∅)) "NDEBUG"
  = true.
Proof.
  apply (header_undefines_nothing Example.unknown_toolchain _ "NDEBUG").
  reflexivity.
Defined.

Lemma base_h_guard (P : predefined) (E : table) :
  defined (base_h P E) "_CUPS_BASE_H_" = true.
Proof.
  unfold base_h, ifdef, cond.
  destruct (defined E "_CUPS_BASE_H_") eqn:Hguard; [done|].
  apply defines_seq_l; [apply defines_define_flag|]. groups.
Qed.

(** X1.  The include guard works, for every table: once the header has
    been read, reading it again changes nothing, not even when the
    predefined macros have changed in between. *)
Theorem include_twice (P P' : predefined) (E : table) :
  base_h P' (base_h P E) = base_h P E.
Proof.
  unfold base_h at 1. unfold ifdef, cond.
  by rewrite base_h_guard.
Qed.

Lemma deprecated_macros_define (P : predefined) (n : string) :
  n ∈ ["_CUPS_DEPRECATED"; "_CUPS_DEPRECATED_MSG"] →
  defines n (deprecated_macros P).
Proof.
  intros Hn E. unfold deprecated_macros.
  apply elem_of_cons in Hn as [->|Hn%list_elem_of_singleton]; [|subst n];
    destruct (select_deprecated P E).
  all: first
    [ by apply defines_seq_l;
        [apply defines_define|apply keeps_define_fn || groups]
    | apply defines_seq_r;
        first [apply defines_define_fn
              |apply defines_ifdef; apply defines_define_fn] ].
Qed.

Ltac defines_here :=
  lazymatch goal with
  | |- defines _ (ifdef _ _ _) => apply defines_ifdef; defines_here
  | |- defines _ (cond _ _ _) => apply defines_cond; defines_here
  | |- defines _ (if _ then _ else _) => apply defines_if; defines_here
  | |- defines ?n (define ?n _) => apply defines_define
  | |- defines ?n (define_fn ?n _ _ _) => apply defines_define_fn
  | |- defines ?n (define_flag ?n) => apply defines_define_flag
  | |- defines _ (seq _ _) =>
      first [ solve [apply defines_seq_l; [defines_here|groups]]
            | solve [apply defines_seq_r; defines_here] ]
  | |- defines _ (visibility_macros _) => unfold visibility_macros; defines_here
  | |- defines _ (deprecated_macros _) => apply deprecated_macros_define; listed
  | |- defines _ format_macro => unfold format_macro; defines_here
  | |- defines _ (internal_msg_macro _) => unfold internal_msg_macro; defines_here
  | |- defines _ nonnull_macro => unfold nonnull_macro; defines_here
  | |- defines _ noreturn_macro => unfold noreturn_macro; defines_here
  end.

(** X4.  Read into a table that does not have the guard yet, the header
    defines every one of its nine annotation macros, whatever the compiler
    and the build predefine and whatever else the table holds: no group of
    the header leaves one of them out. *)
Theorem annotation_macros_defined (P : predefined) (E : table) (n : string) :
  defined E "_CUPS_BASE_H_" = false →
  n ∈ annotation_macros →
  defined (base_h P E) n = true.
Proof.
  intros Hguard Hn. unfold base_h, ifdef, cond. rewrite Hguard.
  revert E Hguard.
  match goal with |- ∀ E, _ → defined (?d E) n = true =>
    intros E _; revert E; change (defines n d) end.
  unfold annotation_macros in Hn.
  repeat (apply elem_of_cons in Hn as [->|Hn]); [defines_here..|].
  by apply elem_of_nil in Hn.
Qed.

Lemma annotation_macros_defined_noreturn :
  defined (base_h Example.unknown_toolchain ∅) "_CUPS_NORETURN" = true.
Proof.
  apply (annotation_macros_defined Example.unknown_toolchain ∅ "_CUPS_NORETURN").
  - reflexivity.
  - unfold annotation_macros. listed.
Defined.

(** X5.  The groups after line 67 change no feature macro: what the later
    groups and the use sites find under a [_CUPS_HAS_*] name or under
    [__attribute__] is what the feature detection left there. *)
Theorem feature_macros_settled (P : predefined) (E : table) (n : string) :
  defined E "_CUPS_BASE_H_" = false →
  n ∈ "_CUPS_HAS_NONNULL" :: feature_macros →
  base_h P E !! n = features P (define_flag "_CUPS_BASE_H_" E) !! n.
Proof.
  intros Hguard Hn. unfold base_h, ifdef, cond. rewrite Hguard.
  assert (Hout : n ∉ annotation_macros).
  { unfold feature_macros in Hn. unfold annotation_macros.
    repeat (apply elem_of_cons in Hn as [->|Hn]);
      [rewrite !not_elem_of_cons; repeat split; try done; apply not_elem_of_nil..|].
    by apply elem_of_nil in Hn. }
  unfold seq.
  rewrite noreturn_macro_touch, nonnull_macro_touch, internal_msg_macro_touch,
    format_macro_touch, deprecated_macros_touch, visibility_macros_touch; done.
Qed.

Lemma feature_macros_settled_clang :
  base_h (Example.clang true false true) ∅ !! "_CUPS_HAS_VISIBILITY"
  = features (Example.clang true false true) (define_flag "_CUPS_BASE_H_" ∅)
    !! "_CUPS_HAS_VISIBILITY".
Proof.
  apply (feature_macros_settled (Example.clang true false true) ∅).
  - reflexivity.
  - unfold feature_macros. listed.
Defined.

(** X6.  [LIBCUPS2_EXPORTS] has no effect: the only test of it, on line
    79, is conjoined with the constant 0.  The table the header produces is
    the same with and without the macro. *)
Theorem exports_switch_ignored ext gnuc gnuc_minor win32 apple source
    no_deprecated (exports exports' : bool) (E : table) :
  base_h {| __has_extension := ext; __GNUC__ := gnuc;
            __GNUC_MINOR__ := gnuc_minor; _WIN32 := win32;
            __APPLE__ := apple; _CUPS_SOURCE := source;
            _CUPS_NO_DEPRECATED := no_deprecated;
            LIBCUPS2_EXPORTS := exports |} E
  = base_h {| __has_extension := ext; __GNUC__ := gnuc;
              __GNUC_MINOR__ := gnuc_minor; _WIN32 := win32;
              __APPLE__ := apple; _CUPS_SOURCE := source;
              _CUPS_NO_DEPRECATED := no_deprecated;
              LIBCUPS2_EXPORTS := exports' |} E.
Proof.
  unfold base_h, visibility_macros.
  cbn [_WIN32 LIBCUPS2_EXPORTS]. by rewrite !andb_false_r.
Qed.

(** ** Feature detection on each kind of compiler *)

(** X7.  A compiler with [__has_extension] takes the first group of lines
    41-51 whatever else it predefines: the four base feature macros are
    defined, each message feature exactly when the compiler answers yes to
    its query, and [__attribute__] is not turned into a macro, not even
    with [_WIN32]. *)
Theorem clang_features (P : predefined) (query : string → bool) :
  __has_extension P = Some query →
  supports P "_CUPS_HAS_DEPRECATED" = true ∧
  supports P "_CUPS_HAS_FORMAT" = true ∧
  supports P "_CUPS_HAS_NORETURN" = true ∧
  supports P "_CUPS_HAS_VISIBILITY" = true ∧
  supports P "_CUPS_HAS_DEPRECATED_WITH_MESSAGE"
  = query "attribute_deprecated_with_message" ∧
  supports P "_CUPS_HAS_UNAVAILABLE_WITH_MESSAGE"
  = query "attribute_unavailable_with_message" ∧
  defined (included P) "__attribute__" = false.
Proof.
  destruct P as [ext gnuc gnuc_minor win32 apple source no_deprecated exports].
  cbn [__has_extension]. intros ->.
  expose; decide_tests;
    destruct win32, apple, source, no_deprecated, exports;
    vm_compute; repeat split.
Qed.

Lemma clang_features_win32 :
  supports Toolchain.clang_win32_plain "_CUPS_HAS_DEPRECATED" = true ∧
  supports Toolchain.clang_win32_plain "_CUPS_HAS_FORMAT" = true ∧
  supports Toolchain.clang_win32_plain "_CUPS_HAS_NORETURN" = true ∧
  supports Toolchain.clang_win32_plain "_CUPS_HAS_VISIBILITY" = true ∧
  supports Toolchain.clang_win32_plain "_CUPS_HAS_DEPRECATED_WITH_MESSAGE"
  = false ∧
  supports Toolchain.clang_win32_plain "_CUPS_HAS_UNAVAILABLE_WITH_MESSAGE"
  = false ∧
  defined (included Toolchain.clang_win32_plain) "__attribute__" = false.
Proof.
  apply (clang_features Toolchain.clang_win32_plain (λ _, false)). reflexivity.
Defined.

(** X8.  A compiler with neither [__has_extension] nor [__GNUC__] gets no
    feature macro at all, and [__attribute__] becomes a macro exactly when
    [_WIN32] is defined. *)
Theorem no_compiler_id_no_features (P : predefined) :
  __has_extension P = None →
  __GNUC__ P = None →
  supports P "_CUPS_HAS_DEPRECATED" = false ∧
  supports P "_CUPS_HAS_FORMAT" = false ∧
  supports P "_CUPS_HAS_NORETURN" = false ∧
  supports P "_CUPS_HAS_VISIBILITY" = false ∧
  supports P "_CUPS_HAS_DEPRECATED_WITH_MESSAGE" = false ∧
  supports P "_CUPS_HAS_UNAVAILABLE_WITH_MESSAGE" = false ∧
  defined (included P) "__attribute__" = _WIN32 P.
Proof.
  destruct P as [ext gnuc gnuc_minor win32 apple source no_deprecated exports].
  cbn [__has_extension __GNUC__ _WIN32]. intros -> ->.
  destruct win32, apple, source, no_deprecated, exports;
    vm_compute; repeat split.
Qed.

Lemma no_compiler_id_no_features_msvc :
  supports Example.msvc_exports "_CUPS_HAS_DEPRECATED" = false ∧
  supports Example.msvc_exports "_CUPS_HAS_FORMAT" = false ∧
  supports Example.msvc_exports "_CUPS_HAS_NORETURN" = false ∧
  supports Example.msvc_exports "_CUPS_HAS_VISIBILITY" = false ∧
  supports Example.msvc_exports "_CUPS_HAS_DEPRECATED_WITH_MESSAGE" = false ∧
  supports Example.msvc_exports "_CUPS_HAS_UNAVAILABLE_WITH_MESSAGE" = false ∧
  defined (included Example.msvc_exports) "__attribute__"
  = _WIN32 Example.msvc_exports.
Proof.
  apply (no_compiler_id_no_features Example.msvc_exports); reflexivity.
Defined.

(** X9.  Whatever is predefined, the feature macros the header ends up
    with are consistent: the four base features come together; a message
    feature never comes without [_CUPS_HAS_DEPRECATED]; and [__attribute__]
    is turned into a macro only where no feature is available, so that an
    attribute the compiler supports is never erased. *)
Theorem features_consistent (P : predefined) :
  supports P "_CUPS_HAS_FORMAT" = supports P "_CUPS_HAS_DEPRECATED" ∧
  supports P "_CUPS_HAS_NORETURN" = supports P "_CUPS_HAS_DEPRECATED" ∧
  supports P "_CUPS_HAS_VISIBILITY" = supports P "_CUPS_HAS_DEPRECATED" ∧
  (supports P "_CUPS_HAS_DEPRECATED_WITH_MESSAGE" = true →
   supports P "_CUPS_HAS_DEPRECATED" = true) ∧
  (supports P "_CUPS_HAS_UNAVAILABLE_WITH_MESSAGE" = true →
   supports P "_CUPS_HAS_DEPRECATED" = true) ∧
  (defined (included P) "__attribute__" = true →
   supports P "_CUPS_HAS_DEPRECATED" = false ∧
   supports P "_CUPS_HAS_DEPRECATED_WITH_MESSAGE" = false ∧
   supports P "_CUPS_HAS_UNAVAILABLE_WITH_MESSAGE" = false).
Proof.
  header_cases P; vm_compute; repeat split; intros; done.
Qed.

Lemma features_consistent_clang :
  supports (Example.clang true false true) "_CUPS_HAS_DEPRECATED" = true.
Proof.
  destruct (features_consistent (Example.clang true false true))
    as (_ & _ & _ & Hmsg & _).
  apply Hmsg. reflexivity.
Defined.

(** ** The expansion of each annotation macro *)

(** X10.  [_CUPS_NORETURN] is [__attribute__ ((noreturn))] where
    [_CUPS_HAS_NORETURN] is defined and nothing elsewhere. *)
Theorem noreturn_expansion (P : predefined) :
  expansion P _CUPS_NORETURN
  = Some (if supports P "_CUPS_HAS_NORETURN" then noreturn else []).
Proof. header_cases P; vm_compute; reflexivity. Qed.

(** X11.  Where [_CUPS_HAS_VISIBILITY] is defined, [_CUPS_INTERNAL] is the
    hidden visibility attribute and [_CUPS_PRIVATE] and [_CUPS_PUBLIC] are
    the default one; elsewhere all three are empty.  So [_CUPS_INTERNAL]
    differs from [_CUPS_PUBLIC] exactly on the compilers with visibility
    support. *)
Theorem visibility_expansions (P : predefined) :
  expansion P _CUPS_INTERNAL
  = Some (if supports P "_CUPS_HAS_VISIBILITY" then visibility "hidden" else []) ∧
  expansion P _CUPS_PRIVATE
  = Some (if supports P "_CUPS_HAS_VISIBILITY" then visibility "default" else []) ∧
  expansion P _CUPS_PUBLIC
  = Some (if supports P "_CUPS_HAS_VISIBILITY" then visibility "default" else []) ∧
  (expansion P _CUPS_INTERNAL ≠ expansion P _CUPS_PUBLIC ↔
   supports P "_CUPS_HAS_VISIBILITY" = true).
Proof.
  header_cases P; vm_compute; repeat split; intros; try done.
  all: exfalso; auto.
Qed.

(** X12.  [_CUPS_DEPRECATED_MSG(m)], through all five groups of lines
    99-126: [_CUPS_PUBLIC] alone for the first group; on Apple's platform
    the unavailable attribute with [m] under [_CUPS_NO_DEPRECATED] and the
    deprecated attribute with [m] otherwise; elsewhere the unavailable
    attribute with [m] where that feature and [_CUPS_NO_DEPRECATED] are
    both there, else the deprecated attribute, with [m] only where
    [_CUPS_HAS_DEPRECATED_WITH_MESSAGE] is defined.  [_CUPS_PUBLIC] always
    follows. *)
Theorem deprecated_msg_expansion (P : predefined) (m : string) :
  ∃ pub,
    expansion P _CUPS_PUBLIC = Some pub ∧
    expansion P (_CUPS_DEPRECATED_MSG m)
    = Some (if negb (supports P "_CUPS_HAS_DEPRECATED")
               || (_CUPS_SOURCE P && negb (_CUPS_NO_DEPRECATED P))
            then pub
            else if __APPLE__ P && _CUPS_NO_DEPRECATED P
            then unavailable_with (Str m) ++ pub
            else if __APPLE__ P
            then deprecated_with (Str m) ++ pub
            else if supports P "_CUPS_HAS_UNAVAILABLE_WITH_MESSAGE"
                    && _CUPS_NO_DEPRECATED P
            then unavailable_with (Str m) ++ pub
            else if supports P "_CUPS_HAS_DEPRECATED_WITH_MESSAGE"
            then deprecated_with (Str m) ++ pub
            else deprecated ++ pub).
Proof.
  header_cases P; vm_compute; eexists; split; reflexivity.
Qed.

(** X13.  [_CUPS_INTERNAL_MSG(m)], through the four groups of lines
    147-155: [_CUPS_PUBLIC] alone under [_CUPS_SOURCE]; otherwise the
    unavailable attribute with [m], else the deprecated attribute with [m],
    else the bare deprecated attribute, by the message features alone, and
    [_CUPS_PUBLIC] after it.  Where line 66 has made [__attribute__] a
    macro the attribute disappears. *)
Theorem internal_msg_expansion (P : predefined) (m : string) :
  ∃ pub,
    expansion P _CUPS_PUBLIC = Some pub ∧
    expansion P (_CUPS_INTERNAL_MSG m)
    = Some (if _CUPS_SOURCE P then pub
            else if defined (included P) "__attribute__" then pub
            else if supports P "_CUPS_HAS_UNAVAILABLE_WITH_MESSAGE"
            then unavailable_with (Str m) ++ pub
            else if supports P "_CUPS_HAS_DEPRECATED_WITH_MESSAGE"
            then deprecated_with (Str m) ++ pub
            else deprecated ++ pub).
Proof.
  header_cases P; vm_compute; eexists; split; reflexivity.
Qed.

(** X14.  On Apple's platform lines 103-111 never look at the message
    features: a client there gets [__attribute__ ((deprecated(m)))] from
    [_CUPS_DEPRECATED_MSG(m)] also from a compiler for which
    [_CUPS_HAS_DEPRECATED_WITH_MESSAGE] is not defined, such as GCC 4.0. *)
Theorem apple_message_without_feature (P : predefined) (m : string) :
  __APPLE__ P = true →
  _CUPS_NO_DEPRECATED P = false →
  _CUPS_SOURCE P = false →
  supports P "_CUPS_HAS_DEPRECATED" = true →
  supports P "_CUPS_HAS_DEPRECATED_WITH_MESSAGE" = false →
  ∃ pub,
    expansion P _CUPS_PUBLIC = Some pub ∧
    expansion P (_CUPS_DEPRECATED_MSG m) = Some (deprecated_with (Str m) ++ pub).
Proof.
  header_cases P; vm_compute; intros; try discriminate;
    eexists; split; reflexivity.
Qed.

Lemma apple_message_without_feature_gcc_4_0 :
  ∃ pub,
    expansion Toolchain.apple_gcc_4_0 _CUPS_PUBLIC = Some pub ∧
    expansion Toolchain.apple_gcc_4_0 (_CUPS_DEPRECATED_MSG "use X")
    = Some (deprecated_with (Str "use X") ++ pub).
Proof.
  apply (apple_message_without_feature Toolchain.apple_gcc_4_0 "use X");
    reflexivity.
Defined.

(** X15.  Both definitions of [_CUPS_FORMAT] (lines 134 and 136) take two
    parameters and every definition of [_CUPS_DEPRECATED_MSG] and
    [_CUPS_INTERNAL_MSG] takes one.  A use with another number of
    arguments is a preprocessing error on every compiler, also where the
    macro expands to nothing. *)
Theorem wrong_argument_count (P : predefined) (a b c : Z) (m m' : string) :
  expansion P (call "_CUPS_FORMAT" [Num a]) = None ∧
  expansion P (call "_CUPS_FORMAT" [Num a; Comma; Num b; Comma; Num c]) = None ∧
  expansion P (call "_CUPS_DEPRECATED_MSG" [Str m; Comma; Str m']) = None ∧
  expansion P (call "_CUPS_INTERNAL_MSG" [Str m; Comma; Str m']) = None.
Proof. header_cases P; vm_compute; repeat split. Qed.

(** An empty argument after the last one is an argument too many, as for
    the preprocessor: [_CUPS_DEPRECATED_MSG("x",)] and [_CUPS_FORMAT(1,2,)]
    are errors. *)
Lemma trailing_empty_argument (P : predefined) (a b : Z) (m : string) :
  expansion P (call "_CUPS_DEPRECATED_MSG" [Str m; Comma]) = None ∧
  expansion P (call "_CUPS_INTERNAL_MSG" [Str m; Comma]) = None ∧
  expansion P (call "_CUPS_FORMAT" [Num a; Comma; Num b; Comma]) = None.
Proof. header_cases P; vm_compute; repeat split. Qed.

(** X16.  On a compiler with neither [__has_extension] nor [__GNUC__]
    every annotation macro but one expands to nothing.  The exception is
    [_CUPS_INTERNAL_MSG(m)], which is empty only under [_CUPS_SOURCE] or
    [_WIN32] and otherwise [__attribute__ ((deprecated))]. *)
Theorem no_compiler_id_expansions (P : predefined) :
  __has_extension P = None →
  __GNUC__ P = None →
  expansion P _CUPS_INTERNAL = Some [] ∧
  expansion P _CUPS_PRIVATE = Some [] ∧
  expansion P _CUPS_PUBLIC = Some [] ∧
  expansion P _CUPS_DEPRECATED = Some [] ∧
  (∀ m, expansion P (_CUPS_DEPRECATED_MSG m) = Some []) ∧
  (∀ a b, expansion P (_CUPS_FORMAT a b) = Some []) ∧
  (∀ indices, expansion P (_CUPS_NONNULL indices) = Some []) ∧
  expansion P _CUPS_NORETURN = Some [] ∧
  (∀ m, expansion P (_CUPS_INTERNAL_MSG m)
        = Some (if _CUPS_SOURCE P || _WIN32 P then [] else deprecated)).
Proof.
  intros Hext Hgnuc.
  assert (Hnonnull := nonnull_expansion P).
  revert Hext Hgnuc Hnonnull.
  destruct P as [ext gnuc gnuc_minor win32 apple source no_deprecated exports].
  cbn [__has_extension __GNUC__ _CUPS_SOURCE _WIN32]. intros -> -> Hnonnull.
  repeat match goal with |- _ ∧ _ => split end;
    try exact Hnonnull;
    destruct win32, apple, source, no_deprecated, exports;
    vm_compute; reflexivity.
Qed.

Lemma no_compiler_id_expansions_unknown :
  expansion Example.unknown_toolchain _CUPS_NORETURN = Some [] ∧
  expansion Example.unknown_toolchain (_CUPS_INTERNAL_MSG "use X")
  = Some deprecated.
Proof.
  destruct (no_compiler_id_expansions Example.unknown_toolchain)
    as (_ & _ & _ & _ & _ & _ & _ & Hnoreturn & Hinternal); [reflexivity..|].
  split; [exact Hnoreturn|apply Hinternal].
Defined.

(** ** Switches that make no difference *)

(** X17.  For a client off Apple's platform whose compiler has no
    [__has_extension], [_CUPS_NO_DEPRECATED] changes nothing: line 103 needs
    [__APPLE__] and line 113 a feature only the first group of the
    detection defines.  The header leaves the same table with and without
    the switch. *)
Theorem no_deprecated_ignored_by_gcc_clients gnuc gnuc_minor win32 exports
    (no_deprecated no_deprecated' : bool) :
  included {| __has_extension := None; __GNUC__ := gnuc;
              __GNUC_MINOR__ := gnuc_minor; _WIN32 := win32;
              __APPLE__ := false; _CUPS_SOURCE := false;
              _CUPS_NO_DEPRECATED := no_deprecated;
              LIBCUPS2_EXPORTS := exports |}
  = included {| __has_extension := None; __GNUC__ := gnuc;
                __GNUC_MINOR__ := gnuc_minor; _WIN32 := win32;
                __APPLE__ := false; _CUPS_SOURCE := false;
                _CUPS_NO_DEPRECATED := no_deprecated';
                LIBCUPS2_EXPORTS := exports |}.
Proof.
  set (P := {| __has_extension := None; _CUPS_NO_DEPRECATED := no_deprecated |}).
  set (P' := {| __has_extension := None; _CUPS_NO_DEPRECATED := no_deprecated' |}).
  assert (Hfeature :
    defined (at_line_99 P) "_CUPS_HAS_UNAVAILABLE_WITH_MESSAGE" = false).
  { subst P. destruct gnuc as [major|]; [destruct gnuc_minor as [minor|]|];
      expose; decide_tests; destruct win32, exports, no_deprecated;
      vm_compute; reflexivity. }
  assert (Hselect :
    select_deprecated P (at_line_99 P) = select_deprecated P' (at_line_99 P)).
  { unfold select_deprecated. rewrite Hfeature. subst P P'.
    cbn [__APPLE__ _CUPS_SOURCE _CUPS_NO_DEPRECATED andb].
    by destruct (defined _ _). }
  change (included P)
    with (noreturn_macro (nonnull_macro (internal_msg_macro P (format_macro
            (deprecated_macros P (at_line_99 P)))))).
  change (included P')
    with (noreturn_macro (nonnull_macro (internal_msg_macro P (format_macro
            (deprecated_macros P' (at_line_99 P)))))).
  unfold deprecated_macros. by rewrite Hselect.
Qed.

(** X18.  [_CUPS_INTERNAL_MSG] looks at [_CUPS_SOURCE] and the message
    features only: neither [__APPLE__] nor [_CUPS_NO_DEPRECATED], which
    steer [_CUPS_DEPRECATED_MSG], nor [LIBCUPS2_EXPORTS] changes its
    definition. *)
Theorem internal_msg_ignores_switches ext gnuc gnuc_minor win32 source
    (apple no_deprecated exports apple' no_deprecated' exports' : bool) :
  included {| __has_extension := ext; __GNUC__ := gnuc;
              __GNUC_MINOR__ := gnuc_minor; _WIN32 := win32;
              __APPLE__ := apple; _CUPS_SOURCE := source;
              _CUPS_NO_DEPRECATED := no_deprecated;
              LIBCUPS2_EXPORTS := exports |} !! "_CUPS_INTERNAL_MSG"
  = included {| __has_extension := ext; __GNUC__ := gnuc;
                __GNUC_MINOR__ := gnuc_minor; _WIN32 := win32;
                __APPLE__ := apple'; _CUPS_SOURCE := source;
                _CUPS_NO_DEPRECATED := no_deprecated';
                LIBCUPS2_EXPORTS := exports' |} !! "_CUPS_INTERNAL_MSG".
Proof.
  destruct ext as [has_extension|];
    [|destruct gnuc as [major|]; [destruct gnuc_minor as [minor|]|]];
    expose; decide_tests;
    destruct win32, source, apple, no_deprecated, exports,
      apple', no_deprecated', exports';
    vm_compute; reflexivity.
Qed.

(** X19.  Under [_CUPS_NO_DEPRECATED] the second disjunct of line 99 is
    false, so [_CUPS_SOURCE] no longer matters to the deprecation macros:
    the library's own source gets the same [_CUPS_DEPRECATED] and
    [_CUPS_DEPRECATED_MSG] as a client. *)
Theorem source_ignored_under_no_deprecated ext gnuc gnuc_minor win32 apple
    exports (source source' : bool) :
  included {| __has_extension := ext; __GNUC__ := gnuc;
              __GNUC_MINOR__ := gnuc_minor; _WIN32 := win32;
              __APPLE__ := apple; _CUPS_SOURCE := source;
              _CUPS_NO_DEPRECATED := true;
              LIBCUPS2_EXPORTS := exports |} !! "_CUPS_DEPRECATED"
  = included {| __has_extension := ext; __GNUC__ := gnuc;
                __GNUC_MINOR__ := gnuc_minor; _WIN32 := win32;
                __APPLE__ := apple; _CUPS_SOURCE := source';
                _CUPS_NO_DEPRECATED := true;
                LIBCUPS2_EXPORTS := exports |} !! "_CUPS_DEPRECATED" ∧
  included {| __has_extension := ext; __GNUC__ := gnuc;
              __GNUC_MINOR__ := gnuc_minor; _WIN32 := win32;
              __APPLE__ := apple; _CUPS_SOURCE := source;
              _CUPS_NO_DEPRECATED := true;
              LIBCUPS2_EXPORTS := exports |} !! "_CUPS_DEPRECATED_MSG"
  = included {| __has_extension := ext; __GNUC__ := gnuc;
                __GNUC_MINOR__ := gnuc_minor; _WIN32 := win32;
                __APPLE__ := apple; _CUPS_SOURCE := source';
                _CUPS_NO_DEPRECATED := true;
                LIBCUPS2_EXPORTS := exports |} !! "_CUPS_DEPRECATED_MSG".
Proof.
  destruct ext as [has_extension|];
    [|destruct gnuc as [major|]; [destruct gnuc_minor as [minor|]|]];
    expose; decide_tests;
    destruct win32, apple, exports, source, source';
    vm_compute; split; reflexivity.
Qed.
